(** * The user registry of [container-express-app/src/index.js]

    A shallow embedding of the Express application: the JavaScript values a
    parsed JSON body can hold, the three route handlers as functions on the
    module-level [users] array, the server as a fold of the handlers over a
    request sequence, and Node's event loop as a step relation that runs one
    pending handler at a time.  The port of the environment-variable demo
    ([process.env.PORT]) is embedded next to the registry's constant. *)

From Stdlib Require Import ZArith String Lia.
From Stdlib Require Import Floats.SpecFloat.
From stdpp Require Import base list relations strings gmap.

Open Scope string_scope.
Open Scope list_scope.
Set Warnings "-register-all".

(** ** JavaScript values *)

Module Js.

(** The identity of an array or object.  [JSON.parse] builds new objects on
    every call, so the objects of two request bodies never share one. *)
Definition addr : Type := nat.

(** A value as [body-parser] leaves it in [req.body], or as a property read
    returns it.  Numbers are IEEE doubles, kept in the normal form of
    [spec_float]; arrays and objects carry their identity. *)
Inductive value : Type :=
  | VUndefined
  | VNull
  | VBool (b : bool)
  | VNum (x : spec_float)
  | VStr (s : string)
  | VArr (a : addr) (items : list value)
  | VObj (a : addr) (members : list (string * value)).

(** A JSON document, the payload of [res.json]. *)
Inductive json : Type :=
  | JNull
  | JBool (b : bool)
  | JNum (x : spec_float)
  | JStr (s : string)
  | JArr (items : list json)
  | JObj (members : list (string * json)).

(** [ToBoolean], the test behind [!newUserId]. *)
Definition truthy (v : value) : bool :=
  match v with
  | VUndefined | VNull => false
  | VBool b => b
  | VNum (S754_zero _) | VNum S754_nan => false
  | VNum _ => true
  | VStr s => negb (String.eqb s "")
  | VArr _ _ | VObj _ _ => true
  end.

Definition num_same (x y : spec_float) : bool :=
  match x, y with
  | S754_zero _, S754_zero _ => true
  | S754_nan, S754_nan => true
  | S754_infinity s, S754_infinity t => Bool.eqb s t
  | S754_finite s m e, S754_finite t n f =>
      Bool.eqb s t && Pos.eqb m n && Z.eqb e f
  | _, _ => false
  end.

(** [SameValueZero], the comparison of [Array.prototype.includes]: strings
    by content, numbers by value with the two zeros identified, arrays and
    objects by identity. *)
Definition same_value_zero (x y : value) : bool :=
  match x, y with
  | VUndefined, VUndefined => true
  | VNull, VNull => true
  | VBool b, VBool c => Bool.eqb b c
  | VNum m, VNum n => num_same m n
  | VStr s, VStr t => String.eqb s t
  | VArr a _, VArr b _ => Nat.eqb a b
  | VObj a _, VObj b _ => Nat.eqb a b
  | _, _ => false
  end.

(** [arr.includes(v)] *)
Definition includes (arr : list value) (v : value) : bool :=
  existsb (fun x => same_value_zero x v) arr.

(** The own property [k] of an object built from the member list [ms]; as in
    [JSON.parse], the last member of a repeated name is the one kept. *)
Fixpoint own_property {A : Type} (k : string) (ms : list (string * A))
  : option A :=
  match ms with
  | [] => None
  | (k', v) :: rest =>
      match own_property k rest with
      | Some w => Some w
      | None => if String.eqb k' k then Some v else None
      end
  end.

(** The property read [o.userId].  Reading a property of [undefined] or
    [null] throws a TypeError ([None]).  An object answers with its own
    member or [undefined]; arrays and primitives have no property of that
    name, on themselves or on their prototypes. *)
Definition get_userId (o : value) : option value :=
  match o with
  | VUndefined | VNull => None
  | VObj _ ms => Some (default VUndefined (own_property "userId" ms))
  | _ => Some VUndefined
  end.

(** The document [JSON.stringify] writes for a value.  Non-finite numbers
    and [undefined] array items become [null], both zeros are written [0],
    and members whose value is [undefined] are left out. *)
Fixpoint to_json (v : value) : json :=
  match v with
  | VUndefined | VNull => JNull
  | VBool b => JBool b
  | VNum (S754_infinity _) | VNum S754_nan => JNull
  | VNum (S754_zero _) => JNum (S754_zero false)
  | VNum x => JNum x
  | VStr s => JStr s
  | VArr _ items => JArr (List.map to_json items)
  | VObj _ ms =>
      JObj ((fix members (l : list (string * value)) : list (string * json) :=
               match l with
               | [] => []
               | (_, VUndefined) :: rest => members rest
               | (k, w) :: rest => (k, to_json w) :: members rest
               end) ms)
  end.

(** Number of entries of [arr] that [includes] would match against [v]. *)
Definition count_same (v : value) (arr : list value) : nat :=
  length (List.filter (fun x => same_value_zero x v) arr).

(** No two entries of the array are the same value to [includes]. *)
Definition distinct (arr : list value) : Prop :=
  ∀ i j x y, arr !! i = Some x → arr !! j = Some y →
    same_value_zero x y = true → i = j.

End Js.

(** ** The application *)

Module App.
Import Js.

Inductive payload : Type :=
  | Text (s : string)
  | Json (j : json).

Record response : Type := Response { status : Z; body : payload }.

(** What a handler call ends in: a response sent, or an exception that
    leaves the handler. *)
Inductive outcome : Type :=
  | Sent (r : response)
  | Thrown.

(** [const PORT = 3000;] *)
Definition PORT : Z := 3000.

(** [app.listen(PORT, ...)]: the port the server listens on, with the
    environment of the process at hand; the module never reads it. *)
Definition listen_port (env : gmap string string) : Z := PORT.

(** [const users = [];] at module load. *)
Definition init : list value := [].

(** [app.get('/')]: [res.send] answers with the default status 200. *)
Definition get_root (users : list value) : outcome * list value :=
  (Sent (Response 200 (Text "Hello, World!")), users).

(** [app.get('/users')]: [res.json({ users })]. *)
Definition get_users (users : list value) : outcome * list value :=
  (Sent (Response 200 (Json (JObj [("users", JArr (List.map to_json users))]))),
   users).

(** [app.post('/users')], on the parsed body [req.body]. *)
Definition post_users (users : list value) (req_body : value)
  : outcome * list value :=
  match get_userId req_body with
  | None => (Thrown, users)
  | Some newUserId =>
      if negb (truthy newUserId) then
        (Sent (Response 400 (Text "Missing user Id")), users)
      else if includes users newUserId then
        (Sent (Response 400 (Text "User already exists")), users)
      else
        (Sent (Response 201 (Text "User registered successfully.")),
         users ++ [newUserId])
  end.

(** The three answers of [app.post('/users')]. *)
Definition registered : outcome :=
  Sent (Response 201 (Text "User registered successfully.")).
Definition missing_id : outcome :=
  Sent (Response 400 (Text "Missing user Id")).
Definition already_exists : outcome :=
  Sent (Response 400 (Text "User already exists")).

(** The body [{"userId": v}], parsed into the object at address [a]. *)
Definition with_userId (a : addr) (v : value) : value :=
  VObj a [("userId", v)].

(** The three operations of the service. *)
Inductive request : Type :=
  | GetRoot
  | GetUsers
  | PostUsers (req_body : value).

Definition handle (users : list value) (r : request) : outcome * list value :=
  match r with
  | GetRoot => get_root users
  | GetUsers => get_users users
  | PostUsers b => post_users users b
  end.

(** The server working through a sequence of requests, one after the other:
    the outcomes in order and the array at the end. *)
Fixpoint run (users : list value) (rs : list request)
  : list outcome * list value :=
  match rs with
  | [] => ([], users)
  | r :: rest =>
      let '(o, users') := handle users r in
      let '(os, users'') := run users' rest in
      (o :: os, users'')
  end.

Definition has_status (code : Z) (o : outcome) : bool :=
  match o with
  | Sent r => Z.eqb (status r) code
  | Thrown => false
  end.

Definition count_status (code : Z) (os : list outcome) : nat :=
  length (List.filter (has_status code) os).

(** How often the string [s] occurs among the items of a JSON array. *)
Definition occurrences (s : string) (items : list json) : nat :=
  length (List.filter
            (fun j => match j with JStr t => String.eqb t s | _ => false end)
            items).

End App.

(** ** The event loop *)

Module EventLoop.
Import Js App.

(** Requests that have arrived and wait for their handler, each under the
    number of its connection, the array, and the outcomes so far. *)
Record config : Type := Config {
  store : list value;
  pending : list (nat * request);
  replies : list (nat * outcome)
}.

(** Node runs one callback at a time, to completion: the handlers above are
    synchronous (no [await], no callback of their own), so the loop takes any
    one pending request and runs its whole handler before the next. *)
Inductive step : config → config → Prop :=
  | step_dispatch users before id r after done :
      step (Config users (before ++ (id, r) :: after) done)
           (Config (handle users r).2 (before ++ after)
                   (done ++ [(id, (handle users r).1)])).

(** The request is a registration of the string [s]. *)
Definition carries (s : string) (r : request) : Prop :=
  ∃ b, r = PostUsers b ∧ get_userId b = Some (VStr s).

(** Where a race of the requests [reqs], all registrations of [s], started
    on the array [users], can be: the requests still pending register [s],
    every request is pending or answered, and either nothing has run yet or
    [s] has been pushed, one answer is 201 and the others are 400. *)
Definition raced (users : list value) (s : string)
    (reqs : list (nat * request)) (c : config) : Prop :=
  Forall (λ p, carries s p.2) (pending c)
  ∧ (replies c).*1 ++ (pending c).*1 ≡ₚ reqs.*1
  ∧ ((replies c = [] ∧ store c = users)
     ∨ (store c = users ++ [VStr s]
        ∧ count_status 201 (replies c).*2 = 1
        ∧ count_status 400 (replies c).*2 + 1 = length (replies c))).

End EventLoop.

(** ** The environment-variable demo *)

Module EnvDemo.
Import Js.

(** [const port = process.env.PORT]: the variable's text, [undefined] when
    it is not set. *)
Definition port (env : gmap string string) : value :=
  match env !! "PORT" with
  | Some s => VStr s
  | None => VUndefined
  end.

End EnvDemo.

(** ** Request sequences *)

Module Traffic.
Import Js App.

(** A registration, as opposed to the two reads. *)
Definition is_post (r : request) : bool :=
  match r with
  | PostUsers _ => true
  | GetRoot | GetUsers => false
  end.

(** [undefined] and [null], the values a property cannot be read from. *)
Definition nullish (v : value) : bool :=
  match v with
  | VUndefined | VNull => true
  | _ => false
  end.

(** The request is a read, or a registration whose [req.body] can be read
    from. *)
Definition readable (r : request) : bool :=
  match r with
  | PostUsers b => negb (nullish b)
  | GetRoot | GetUsers => true
  end.

(** The handler answered, with one of the statuses the module sends. *)
Definition answered (o : outcome) : bool :=
  has_status 200 o || has_status 201 o || has_status 400 o.

(** What [req.body.userId] is for the request; the reads have none. *)
Definition userId_of (r : request) : option value :=
  match r with
  | PostUsers b => get_userId b
  | GetRoot | GetUsers => None
  end.

(** The string a request registers, when [req.body.userId] is a string. *)
Definition id_string (r : request) : option string :=
  match userId_of r with
  | Some (VStr s) => Some s
  | _ => None
  end.

(** The answers given to the registrations among [rs], in order, out of the
    answers [os] to all of [rs]. *)
Definition post_answers (rs : list request) (os : list outcome)
  : list outcome :=
  (List.filter (λ p, is_post p.1) (zip rs os)).*2.

(** The strings of a list without the empty one and without repeats, each
    where it comes first. *)
Fixpoint first_ids (ids : list string) : list string :=
  match ids with
  | [] => []
  | s :: rest =>
      if decide (s = "") then first_ids rest
      else s :: filter (λ t, t ≠ s) (first_ids rest)
  end.

End Traffic.

(** ** Facts about the comparison of [includes] *)

Module JsFacts.
Import Js.

Lemma num_same_refl x : num_same x x = true.
Proof.
  destruct x as [s|s| |s m e]; simpl; try done.
  - by destruct s.
  - rewrite Pos.eqb_refl, Z.eqb_refl. by destruct s.
Qed.

Lemma num_same_sym x y : num_same x y = num_same y x.
Proof.
  destruct x as [s|s| |s m e], y as [t|t| |t n f]; simpl; try done.
  - by destruct s, t.
  - rewrite (Pos.eqb_sym m n), (Z.eqb_sym e f). by destruct s, t.
Qed.

Lemma same_value_zero_refl v : same_value_zero v v = true.
Proof.
  destruct v; simpl; try done.
  - by destruct b.
  - apply num_same_refl.
  - apply String.eqb_refl.
  - apply Nat.eqb_refl.
  - apply Nat.eqb_refl.
Qed.

Lemma same_value_zero_sym x y : same_value_zero x y = same_value_zero y x.
Proof.
  destruct x, y; simpl; try done.
  - by destruct b, b0.
  - apply num_same_sym.
  - apply String.eqb_sym.
  - apply Nat.eqb_sym.
  - apply Nat.eqb_sym.
Qed.

(** Against a string, [includes] compares by content. *)
Lemma same_value_zero_string x s :
  same_value_zero x (VStr s) = true ↔ x = VStr s.
Proof.
  split.
  - destruct x; simpl; try done. intros H. by apply String.eqb_eq in H as ->.
  - intros ->. apply same_value_zero_refl.
Qed.

Lemma includes_true arr v :
  includes arr v = true ↔ ∃ x, x ∈ arr ∧ same_value_zero x v = true.
Proof.
  unfold includes. rewrite existsb_exists.
  split; intros (x & Hx & Hs); exists x; split; try done;
    by apply list_elem_of_In.
Qed.

Lemma includes_false arr v :
  includes arr v = false ↔ ∀ x, x ∈ arr → same_value_zero x v = false.
Proof.
  rewrite <- Bool.not_true_iff_false, includes_true. split.
  - intros H x Hx. apply Bool.not_true_iff_false. intros Hs. apply H. eauto.
  - intros H (x & Hx & Hs). rewrite (H x Hx) in Hs. done.
Qed.

Lemma includes_string arr s : includes arr (VStr s) = true ↔ VStr s ∈ arr.
Proof.
  rewrite includes_true. split.
  - intros (x & Hx & Hs). by apply same_value_zero_string in Hs as ->.
  - intros H. exists (VStr s). split; [done | apply same_value_zero_refl].
Qed.

Lemma includes_string_false arr s :
  includes arr (VStr s) = false ↔ VStr s ∉ arr.
Proof.
  rewrite <- Bool.not_true_iff_false, includes_string. done.
Qed.

Lemma truthy_string s : truthy (VStr s) = true ↔ s ≠ "".
Proof.
  simpl. rewrite Bool.negb_true_iff. split.
  - intros H ->. done.
  - intros H. apply String.eqb_neq. done.
Qed.

Lemma distinct_nil : distinct [].
Proof. intros i j x y H. by rewrite lookup_nil in H. Qed.

(** Pushing a value that [includes] did not find keeps the entries apart. *)
Lemma distinct_push arr v :
  distinct arr → includes arr v = false → distinct (arr ++ [v]).
Proof.
  intros Hd Hv i j x y Hi Hj Hs.
  rewrite includes_false in Hv.
  apply lookup_snoc_Some in Hi as [[Hil Hi]|[-> ->]];
    apply lookup_snoc_Some in Hj as [[Hjl Hj]|[-> ->]].
  - eapply Hd; eauto.
  - apply list_elem_of_lookup_2 in Hi. rewrite (Hv _ Hi) in Hs. done.
  - apply list_elem_of_lookup_2 in Hj.
    rewrite same_value_zero_sym, (Hv _ Hj) in Hs. done.
  - done.
Qed.

Lemma distinct_NoDup arr : distinct arr → NoDup arr.
Proof.
  intros Hd. apply NoDup_alt. intros i j x Hi Hj.
  eapply Hd; eauto. apply same_value_zero_refl.
Qed.

Lemma count_same_app v l k :
  count_same v (l ++ k) = count_same v l + count_same v k.
Proof. unfold count_same. by rewrite List.filter_app, length_app. Qed.

Lemma count_same_absent v arr : includes arr v = false → count_same v arr = 0.
Proof.
  rewrite includes_false. unfold count_same.
  induction arr as [|x arr IH]; intros H; simpl; [done|].
  rewrite (H x) by left. apply IH. intros y Hy. apply H. by right.
Qed.

End JsFacts.

(** ** Facts about the handlers *)

Module AppFacts.
Import Js App JsFacts.

(** The three ways [app.post('/users')] returns once the body has a
    [userId] to read. *)
Lemma post_users_missing users b v :
  get_userId b = Some v → truthy v = false →
  post_users users b = (Sent (Response 400 (Text "Missing user Id")), users).
Proof. intros Hb Hv. unfold post_users. by rewrite Hb, Hv. Qed.

Lemma post_users_exists users b v :
  get_userId b = Some v → truthy v = true → includes users v = true →
  post_users users b
  = (Sent (Response 400 (Text "User already exists")), users).
Proof. intros Hb Hv Hi. unfold post_users. by rewrite Hb, Hv, Hi. Qed.

Lemma post_users_push users b v :
  get_userId b = Some v → truthy v = true → includes users v = false →
  post_users users b
  = (Sent (Response 201 (Text "User registered successfully.")),
     users ++ [v]).
Proof. intros Hb Hv Hi. unfold post_users. by rewrite Hb, Hv, Hi. Qed.

(** A request leaves the array as it is or pushes one value that
    [includes] did not find. *)
Lemma handle_store users r :
  (handle users r).2 = users
  ∨ ∃ v, includes users v = false ∧ truthy v = true
         ∧ (handle users r).2 = users ++ [v].
Proof.
  destruct r as [| |b]; simpl; [by left..|].
  unfold post_users. destruct (get_userId b) as [v|]; [|by left].
  destruct (truthy v) eqn:Hv; simpl; [|by left].
  destruct (includes users v) eqn:Hi; [by left|].
  right. by exists v.
Qed.

Lemma handle_prefix users r : users `prefix_of` (handle users r).2.
Proof.
  destruct (handle_store users r) as [->|(v & _ & _ & ->)]; [done|].
  by apply prefix_app_r.
Qed.

Lemma handle_distinct users r : distinct users → distinct (handle users r).2.
Proof.
  intros Hd. destruct (handle_store users r) as [->|(v & Hv & _ & ->)];
    [done|]. by apply distinct_push.
Qed.

Lemma handle_truthy users r :
  Forall (λ v, truthy v = true) users →
  Forall (λ v, truthy v = true) (handle users r).2.
Proof.
  intros Hd. destruct (handle_store users r) as [->|(v & _ & Hv & ->)];
    [done|]. apply Forall_app. split; [done|]. by constructor.
Qed.

Lemma run_cons users r rs :
  run users (r :: rs)
  = ((handle users r).1 :: (run (handle users r).2 rs).1,
     (run (handle users r).2 rs).2).
Proof.
  simpl. destruct (handle users r) as [o u]. simpl.
  by destruct (run u rs).
Qed.

Lemma run_app users rs1 rs2 :
  run users (rs1 ++ rs2)
  = ((run users rs1).1 ++ (run (run users rs1).2 rs2).1,
     (run (run users rs1).2 rs2).2).
Proof.
  revert users. induction rs1 as [|r rs1 IH]; intros users.
  - simpl. by destruct (run users rs2).
  - rewrite <- app_comm_cons, !run_cons, IH. done.
Qed.

Lemma run_prefix users rs : users `prefix_of` (run users rs).2.
Proof.
  revert users. induction rs as [|r rs IH]; intros users; [done|].
  rewrite run_cons. simpl. etrans; [apply handle_prefix | apply IH].
Qed.

Lemma run_distinct users rs : distinct users → distinct (run users rs).2.
Proof.
  revert users. induction rs as [|r rs IH]; intros users Hd; [done|].
  rewrite run_cons. simpl. by apply IH, handle_distinct.
Qed.

Lemma run_truthy users rs :
  Forall (λ v, truthy v = true) users →
  Forall (λ v, truthy v = true) (run users rs).2.
Proof.
  revert users. induction rs as [|r rs IH]; intros users Hd; [done|].
  rewrite run_cons. simpl. by apply IH, handle_truthy.
Qed.

End AppFacts.

(** ** The registry: what each route does to the array *)

Module Registry.
Import Js App JsFacts AppFacts.

Lemma occurrences_app s l k :
  occurrences s (l ++ k) = occurrences s l + occurrences s k.
Proof. unfold occurrences. by rewrite List.filter_app, length_app. Qed.

(** Only the string [s] itself is written as the JSON string [s]. *)
Lemma to_json_string v s : to_json v = JStr s → v = VStr s.
Proof.
  destruct v as [| | |x| | |]; simpl; try done.
  - by destruct x.
  - by intros [= ->].
Qed.

Lemma occurrences_absent s users :
  VStr s ∉ users → occurrences s (List.map to_json users) = 0.
Proof.
  unfold occurrences. induction users as [|v users IH]; intros H; [done|].
  apply not_elem_of_cons in H as [Hv H]. simpl.
  destruct (to_json v) as [| | |t| |] eqn:E; try by apply IH.
  destruct (String.eqb t s) eqn:Et; [|by apply IH].
  apply String.eqb_eq in Et as ->. by apply to_json_string in E.
Qed.

(** C1. Whatever requests the server has worked through since it started
    with the empty array, no two entries of the array are the same value to
    [includes] (so no string occurs twice, and the list has no repeated
    element), and the array a longer run ends with starts with the array of
    each shorter run: entries are pushed at the end, none is moved or taken
    out. *)
Theorem store_unique_append_only (rs1 rs2 : list request) :
  let earlier := (run init rs1).2 in
  let later := (run init (rs1 ++ rs2)).2 in
  distinct later
  ∧ NoDup later
  ∧ (∀ s, (count_same (VStr s) later ≤ 1)%nat)
  ∧ earlier `prefix_of` later.
Proof.
  simpl.
  assert (Hd : distinct (run init (rs1 ++ rs2)).2)
    by apply run_distinct, distinct_nil.
  split_and!.
  - done.
  - by apply distinct_NoDup.
  - intros s. induction (run init (rs1 ++ rs2)).2 as [|v l IH] using rev_ind;
      [by cbv; lia|].
    rewrite count_same_app.
    destruct (same_value_zero v (VStr s)) eqn:E.
    + assert (includes l (VStr s) = false) as Hl.
      { apply includes_false. intros x Hx.
        apply Bool.not_true_iff_false. intros Hs.
        apply same_value_zero_string in E as ->.
        apply same_value_zero_string in Hs as ->.
        apply list_elem_of_lookup in Hx as [i Hi].
        assert (i = length l) as ->.
        { eapply Hd; [ by apply lookup_app_l_Some | | apply same_value_zero_refl].
          apply list_lookup_middle. done. }
        apply lookup_lt_Some in Hi. lia. }
      rewrite (count_same_absent _ _ Hl). unfold count_same. simpl.
      rewrite E. simpl. lia.
    + unfold count_same at 2. simpl. rewrite E. simpl.
      rewrite Nat.add_0_r. apply IH.
      intros i j x y Hi Hj. apply Hd; by apply lookup_app_l_Some.
  - rewrite run_app. simpl. apply run_prefix.
Qed.

(** Arrays and objects are compared by identity, and every parsed body is a
    new object: the same array sent twice is registered twice, and the
    listing then shows its content twice. *)
Example array_id_sent_twice :
  let one := VNum (S754_finite false 1 0) in
  run init [PostUsers (with_userId 0 (VArr 1 [one]));
            PostUsers (with_userId 2 (VArr 3 [one]));
            GetUsers]
  = ([registered; registered;
      Sent (Response 200
              (Json (JObj [("users", JArr [JArr [JNum (S754_finite false 1 0)];
                                           JArr [JNum (S754_finite false 1 0)]])])))],
     [VArr 1 [one]; VArr 3 [one]]).
Proof. reflexivity. Qed.

(** C2, as amended. A non-empty string that is in the array, or any string
    found in the array of a server run from the empty array, is answered with
    400 "User already exists" and the array stays as it is; and a non-empty
    string that is not in the array, registered twice in a row, is answered
    with 201 and then with 400. *)
Theorem duplicate_id_rejected (users : list value) (b b' : value) (s : string) :
  get_userId b = Some (VStr s) →
  get_userId b' = Some (VStr s) →
  (VStr s ∈ users → s ≠ "" ∨ (∃ rs, users = (run init rs).2) →
     post_users users b = (already_exists, users))
  ∧ (s ≠ "" → VStr s ∉ users →
     run users [PostUsers b; PostUsers b']
     = ([registered; already_exists], users ++ [VStr s])).
Proof.
  intros Hb Hb'. split.
  - intros Hin Hs. apply (post_users_exists _ _ (VStr s)); [done| |].
    + destruct Hs as [Hs|[rs ->]]; [by apply truthy_string|].
      pose proof (run_truthy init rs (Forall_nil_2 _)) as Ht.
      rewrite Forall_forall in Ht. by apply Ht.
    + by apply includes_string.
  - intros Hs Hout. rewrite !run_cons. simpl.
    rewrite (post_users_push users b (VStr s)); simpl;
      [|done|by apply truthy_string|by apply includes_string_false].
    rewrite (post_users_exists _ b' (VStr s)); simpl;
      [done|done|by apply truthy_string|].
    apply includes_string. set_solver.
Qed.

Lemma duplicate_id_rejected_witness :
  post_users [VStr "alice"] (with_userId 0 (VStr "alice"))
    = (already_exists, [VStr "alice"])
  ∧ run [VStr "bob"] [PostUsers (with_userId 0 (VStr "alice"));
                       PostUsers (with_userId 1 (VStr "alice"))]
    = ([registered; already_exists], [VStr "bob"; VStr "alice"]).
Proof.
  split.
  - apply (duplicate_id_rejected [VStr "alice"] _ (with_userId 1 (VStr "alice"))
             "alice"); [reflexivity | reflexivity | | left; discriminate].
    apply list_elem_of_In. simpl. left. reflexivity.
  - apply (duplicate_id_rejected [VStr "bob"] _ _ "alice");
      [reflexivity | reflexivity | discriminate | ].
    intros H. apply list_elem_of_In in H. simpl in H.
    destruct H as [H|[]]. discriminate.
Defined.

(** C2, as stated, fails: the empty string registered twice on the new
    server is answered with 400 both times (and so is any string that is in
    the array before the first call). *)
Lemma empty_id_twice_never_201 :
  run init [PostUsers (with_userId 0 (VStr ""));
            PostUsers (with_userId 1 (VStr ""))]
    = ([missing_id; missing_id], [])
  ∧ has_status 201 missing_id = false
  ∧ run [VStr "alice"] [PostUsers (with_userId 0 (VStr "alice"));
                         PostUsers (with_userId 1 (VStr "alice"))]
    = ([already_exists; already_exists], [VStr "alice"])
  ∧ has_status 201 already_exists = false.
Proof. repeat split; reflexivity. Qed.

(** C3. A body whose [userId] is not there or is falsy is answered with 400
    "Missing user Id", and the array stays as it is. *)
Theorem missing_id_rejected (users : list value) (b : value) :
  (∃ v, get_userId b = Some v ∧ truthy v = false) →
  post_users users b = (missing_id, users)
  ∧ (run users [GetUsers; PostUsers b; GetUsers]).1
    = [(get_users users).1; missing_id; (get_users users).1].
Proof.
  intros (v & Hb & Hv).
  pose proof (post_users_missing users b v Hb Hv) as H. split; [done|].
  rewrite !run_cons. simpl. rewrite H. done.
Qed.

Lemma missing_id_rejected_witness :
  post_users [VStr "alice"] (VObj 0 []) = (missing_id, [VStr "alice"])
  ∧ (run [VStr "alice"] [GetUsers; PostUsers (VObj 0 []); GetUsers]).1
    = [(get_users [VStr "alice"]).1; missing_id; (get_users [VStr "alice"]).1].
Proof.
  apply (missing_id_rejected [VStr "alice"] (VObj 0 [])).
  exists VUndefined. split; reflexivity.
Defined.

(** C4. A non-empty string that is not in the array is pushed at its end and
    answered with 201 "User registered successfully."; the array is one entry
    longer and its earlier entries are where they were. *)
Theorem fresh_id_appended (users : list value) (b : value) (s : string) :
  s ≠ "" → get_userId b = Some (VStr s) → VStr s ∉ users →
  ∃ users',
    post_users users b = (registered, users')
    ∧ users' = users ++ [VStr s]
    ∧ length users' = S (length users)
    ∧ (∀ i, (i < length users)%nat → users' !! i = users !! i)
    ∧ users' !! length users = Some (VStr s).
Proof.
  intros Hs Hb Hout. exists (users ++ [VStr s]). split_and!.
  - apply post_users_push; [done|by apply truthy_string|].
    by apply includes_string_false.
  - done.
  - rewrite length_app. simpl. lia.
  - intros i Hi. by apply lookup_app_l.
  - apply list_lookup_middle. done.
Qed.

Lemma fresh_id_appended_witness :
  ∃ users',
    post_users [VStr "bob"] (with_userId 0 (VStr "alice")) = (registered, users')
    ∧ users' = [VStr "bob"] ++ [VStr "alice"]
    ∧ length users' = S (length [VStr "bob"])
    ∧ (∀ i, (i < length [VStr "bob"])%nat → users' !! i = [VStr "bob"] !! i)
    ∧ users' !! length [VStr "bob"] = Some (VStr "alice").
Proof.
  apply (fresh_id_appended [VStr "bob"] (with_userId 0 (VStr "alice")) "alice");
    [discriminate | reflexivity | ].
  intros H. apply list_elem_of_In in H. simpl in H.
  destruct H as [H|[]]. discriminate.
Defined.

(** C5. Registering a non-empty string that is not in the array and then
    listing the users gives 201 and then a listing in which the string
    occurs once. *)
Theorem register_then_list (users : list value) (b : value) (s : string) :
  s ≠ "" → get_userId b = Some (VStr s) → VStr s ∉ users →
  ∃ items,
    (run users [PostUsers b; GetUsers]).1
    = [registered; Sent (Response 200 (Json (JObj [("users", JArr items)])))]
    ∧ occurrences s items = 1.
Proof.
  intros Hs Hb Hout. exists (List.map to_json (users ++ [VStr s])). split.
  - rewrite !run_cons. simpl.
    rewrite (post_users_push users b (VStr s)); simpl;
      [done|done|by apply truthy_string|by apply includes_string_false].
  - rewrite List.map_app, occurrences_app, occurrences_absent by done.
    unfold occurrences. simpl. by rewrite String.eqb_refl.
Qed.

Lemma register_then_list_witness :
  ∃ items,
    (run [VStr "bob"] [PostUsers (with_userId 0 (VStr "alice")); GetUsers]).1
    = [registered; Sent (Response 200 (Json (JObj [("users", JArr items)])))]
    ∧ occurrences "alice" items = 1.
Proof.
  apply (register_then_list [VStr "bob"] (with_userId 0 (VStr "alice")) "alice");
    [discriminate | reflexivity | ].
  intros H. apply list_elem_of_In in H. simpl in H.
  destruct H as [H|[]]. discriminate.
Defined.

(** C6. Listing the users answers 200 with the object whose [users] member
    holds, in order, what [JSON.stringify] writes for each entry of the array
    (for an array of strings: those strings), and leaves the array as it is;
    the new server lists the empty array, and listings in a row with no
    other request between them all give the same answer. *)
Theorem list_users_reads_store (users : list value) (ids : list string) (n : nat) :
  (∃ items,
      get_users users
      = (Sent (Response 200 (Json (JObj [("users", JArr items)]))), users)
      ∧ length items = length users
      ∧ ∀ i v, users !! i = Some v → items !! i = Some (to_json v))
  ∧ (get_users (VStr <$> ids)).1
    = Sent (Response 200 (Json (JObj [("users", JArr (JStr <$> ids))])))
  ∧ (get_users init).1 = Sent (Response 200 (Json (JObj [("users", JArr [])])))
  ∧ run users (replicate n GetUsers) = (replicate n (get_users users).1, users).
Proof.
  split_and!.
  - exists (List.map to_json users). split_and!.
    + done.
    + apply length_map.
    + intros i v Hi. change (List.map to_json users) with (to_json <$> users).
      by rewrite list_lookup_fmap, Hi.
  - assert (List.map to_json (VStr <$> ids) = JStr <$> ids) as E.
    { induction ids as [|t ids IH]; [done|].
      rewrite !fmap_cons. cbn [List.map to_json]. f_equal. exact IH. }
    unfold get_users. by rewrite E.
  - done.
  - induction n as [|n IH]; [done|].
    change (replicate (S n) GetUsers) with (GetUsers :: replicate n GetUsers).
    rewrite run_cons. simpl. by rewrite IH.
Qed.

(** C9. The health check answers 200 "Hello, World!" and leaves the array as
    it is, however often it is called. *)
Theorem health_check_fixed (users : list value) (n : nat) :
  handle users GetRoot = (Sent (Response 200 (Text "Hello, World!")), users)
  ∧ run users (replicate n GetRoot)
    = (replicate n (Sent (Response 200 (Text "Hello, World!"))), users).
Proof.
  split; [done|]. induction n as [|n IH]; [done|].
  change (replicate (S n) GetRoot) with (GetRoot :: replicate n GetRoot).
  rewrite run_cons. simpl. by rewrite IH.
Qed.

(** C10. The registration looks at nothing but the truthiness of [userId]:
    it answers "Missing user Id" exactly when the value is falsy, the falsy
    values are [undefined] (no such member), [null], [false], the empty
    string, the two zeros and NaN (which no JSON text parses to), arrays and
    objects are truthy whatever they hold, and a truthy value of any type
    that [includes] does not find is pushed as it is. *)
Theorem no_type_check (users : list value) (b v : value) :
  get_userId b = Some v →
  ((post_users users b).1 = missing_id ↔ truthy v = false)
  ∧ (truthy v = false ↔
       v = VUndefined ∨ v = VNull ∨ v = VBool false ∨ v = VStr ""
       ∨ (∃ sign, v = VNum (S754_zero sign)) ∨ v = VNum S754_nan)
  ∧ (∀ a items, truthy (VArr a items) = true)
  ∧ (∀ a ms, truthy (VObj a ms) = true)
  ∧ (truthy v = true → includes users v = false →
       post_users users b = (registered, users ++ [v]))
  ∧ (truthy v = true → includes users v = true →
       post_users users b = (already_exists, users)).
Proof.
  intros Hb. split_and!.
  - unfold post_users. rewrite Hb. destruct (truthy v); simpl.
    + split; [|done]. by destruct (includes users v).
    + done.
  - split.
    + destruct v as [| |[]|[]|s| |]; simpl; try done; eauto 10.
      destruct s; [eauto 10|done].
    + intros [->|[->|[->|[->|[[sg ->]| ->]]]]]; done.
  - done.
  - done.
  - intros. by apply (post_users_push _ _ v).
  - intros. by apply (post_users_exists _ _ v).
Qed.

Lemma no_type_check_witness :
  post_users [VStr "alice"] (with_userId 0 (VNum (S754_finite false 42 0)))
  = (registered, [VStr "alice"; VNum (S754_finite false 42 0)]).
Proof.
  apply (no_type_check [VStr "alice"]
           (with_userId 0 (VNum (S754_finite false 42 0)))
           (VNum (S754_finite false 42 0)));
    reflexivity.
Defined.

End Registry.

(** ** The listening port *)

Module Port.
Import Js App.

(** C7, as amended. The registry listens on the constant 3000 whatever the
    environment holds; the environment-variable demo passes on
    [process.env.PORT] as it is, [undefined] when the variable is not set. *)
Theorem port_of_each_app (env : gmap string string) :
  listen_port env = 3000%Z
  ∧ EnvDemo.port env = from_option VStr VUndefined (env !! "PORT").
Proof. split; [done|]. unfold EnvDemo.port. by destruct (env !! "PORT"). Qed.

(** C7, as stated, fails for both applications: with [PORT=8080] in the
    environment the registry still listens on 3000, and the demo has nothing
    to fall back on when [PORT] is not set. *)
Lemma port_not_env_with_fallback :
  listen_port {["PORT" := "8080"]} = 3000%Z
  ∧ EnvDemo.port ∅ = VUndefined.
Proof. split; reflexivity. Qed.

End Port.

(** ** Registrations of one identifier racing on the event loop *)

Module Race.
Import Js App JsFacts AppFacts EventLoop.

Lemma count_status_app code l k :
  count_status code (l ++ k) = count_status code l + count_status code k.
Proof. unfold count_status. by rewrite List.filter_app, length_app. Qed.

(** The loop can always take the next pending request, until none is left. *)
Lemma loop_drains c : ∃ c', rtc step c c' ∧ pending c' = [].
Proof.
  destruct c as [users reqs done]. revert users done.
  induction reqs as [|[id r] reqs IH]; intros users done.
  - eexists. split; [apply rtc_refl | done].
  - destruct (IH (handle users r).2 (done ++ [(id, (handle users r).1)]))
      as (c' & Hsteps & Hc').
    exists c'. split; [|done].
    eapply rtc_l; [|exact Hsteps]. apply (step_dispatch users [] id r reqs done).
Qed.

Lemma answered_or_pending {A B C : Type}
    (done : list (A * B)) (before after : list (A * C)) a x y :
  (done ++ [(a, x)]).*1 ++ (before ++ after).*1
  ≡ₚ done.*1 ++ (before ++ (a, y) :: after).*1.
Proof.
  rewrite !fmap_app, fmap_cons. simpl.
  rewrite <- (assoc_L (++)). simpl. f_equiv. apply Permutation_middle.
Qed.

Section one_identifier.
Variable users : list value.
Variable s : string.
Variable reqs : list (nat * request).
Hypothesis s_not_empty : s ≠ "".
Hypothesis s_not_registered : VStr s ∉ users.
Hypothesis all_carry_s : Forall (λ p, carries s p.2) reqs.

Lemma first_wins b :
  get_userId b = Some (VStr s) →
  post_users users b = (registered, users ++ [VStr s]).
Proof.
  intros Hb. apply post_users_push; [done|by apply truthy_string|].
  by apply includes_string_false.
Qed.

Lemma later_lose b :
  get_userId b = Some (VStr s) →
  post_users (users ++ [VStr s]) b = (already_exists, users ++ [VStr s]).
Proof.
  intros Hb. apply (post_users_exists _ _ (VStr s));
    [done|by apply truthy_string|].
  apply includes_string. set_solver.
Qed.

Lemma raced_step c c' : raced users s reqs c → step c c' → raced users s reqs c'.
Proof.
  intros (Hcarry & Hperm & Hphase) Hstep.
  destruct Hstep as [st before id r after done]. simpl in *.
  apply Forall_app in Hcarry as [Hbefore Hrest].
  apply Forall_cons in Hrest as [(b & Hr & Hb) Hafter].
  simpl in Hr. subst r. simpl.
  split_and!.
  - apply Forall_app. done.
  - rewrite <- Hperm. apply answered_or_pending.
  - right. cbn [store pending replies].
    destruct Hphase as [[-> ->]|(-> & H201 & H400)].
    + rewrite (first_wins b Hb). done.
    + rewrite (later_lose b Hb). cbn [fst snd].
      rewrite fmap_app, !count_status_app, length_app, H201, <- H400.
      split_and!; [done|done|]. cbn. lia.
Qed.

Lemma raced_steps c c' : raced users s reqs c → rtc step c c' → raced users s reqs c'.
Proof. intros Hc Hsteps. induction Hsteps; eauto using raced_step. Qed.

Lemma raced_start : raced users s reqs (Config users reqs []).
Proof. split_and!; simpl; [done|done|by left]. Qed.

Lemma count_same_winner : count_same (VStr s) (users ++ [VStr s]) = 1.
Proof.
  rewrite count_same_app, count_same_absent
    by by apply includes_string_false.
  unfold count_same. simpl. by rewrite String.eqb_refl.
Qed.
End one_identifier.

(** C8. Any number (at least one) of registrations of the same non-empty
    string, none of them handled yet and the string not in the array, can be
    run to the end by the event loop, and in whatever order it takes them
    every request is answered once, exactly one answer is 201, all the others
    are 400, and the array ends with one copy of the string pushed at its
    end. *)
Theorem one_registration_wins
    (users : list value) (s : string) (reqs : list (nat * request)) :
  s ≠ "" → VStr s ∉ users → reqs ≠ [] →
  Forall (λ p, carries s p.2) reqs →
  (∃ c, rtc step (Config users reqs []) c ∧ pending c = [])
  ∧ ∀ c, rtc step (Config users reqs []) c → pending c = [] →
      (replies c).*1 ≡ₚ reqs.*1
      ∧ count_status 201 (replies c).*2 = 1
      ∧ count_status 400 (replies c).*2 = length reqs - 1
      ∧ store c = users ++ [VStr s]
      ∧ count_same (VStr s) (store c) = 1.
Proof.
  intros Hs Hout Hne Hcarry. split; [apply loop_drains|].
  intros c Hsteps Hend.
  assert (raced users s reqs c) as (_ & Hperm & Hphase)
    by (eapply raced_steps; eauto using raced_start).
  rewrite Hend in Hperm. simpl in Hperm. rewrite app_nil_r in Hperm.
  assert (length (replies c) = length reqs) as Hlen.
  { apply Permutation_length in Hperm. by rewrite !length_fmap in Hperm. }
  destruct Hphase as [[Hnone _]|(Hstore & H201 & H400)].
  - rewrite Hnone in Hlen. destruct reqs; [done|simpl in Hlen; lia].
  - rewrite Hstore. split_and!; [done|done|lia|done|].
    by apply count_same_winner.
Qed.

Lemma one_registration_wins_witness :
  count_status 201 [registered; already_exists; already_exists] = 1
  ∧ count_status 400 [registered; already_exists; already_exists] = 2
  ∧ count_same (VStr "alice") [VStr "bob"; VStr "alice"] = 1.
Proof.
  destruct (one_registration_wins [VStr "bob"] "alice"
              [(5, PostUsers (with_userId 0 (VStr "alice")));
               (7, PostUsers (with_userId 1 (VStr "alice")));
               (9, PostUsers (with_userId 2 (VStr "alice")))]) as [_ H].
  - discriminate.
  - intros H. apply list_elem_of_In in H. simpl in H.
    destruct H as [H|[]]. discriminate.
  - discriminate.
  - repeat constructor; eexists; split; reflexivity.
  - destruct (H (Config [VStr "bob"; VStr "alice"] []
                   [(7, registered); (5, already_exists); (9, already_exists)]))
      as (_ & H201 & H400 & _ & Hcount).
    + eapply rtc_l;
        [apply (step_dispatch _ [(5, PostUsers (with_userId 0 (VStr "alice")))]
                  7 _ [(9, PostUsers (with_userId 2 (VStr "alice")))] [])|].
      eapply rtc_l;
        [apply (step_dispatch _ [] 5 _
                  [(9, PostUsers (with_userId 2 (VStr "alice")))] _)|].
      eapply rtc_l; [apply (step_dispatch _ [] 9 _ [] _)|].
      apply rtc_refl.
    + reflexivity.
    + split_and!; [exact H201 | exact H400 | exact Hcount].
Defined.

End Race.

(** ** Whole request sequences *)

Module Sequences.
Import Js App Traffic JsFacts AppFacts.

Lemma run_length users rs : length (run users rs).1 = length rs.
Proof.
  revert users. induction rs as [|r rs IH]; intros users; [done|].
  rewrite run_cons. simpl. by rewrite IH.
Qed.

(** What one request does, with the answer next to the array. *)
Lemma handle_cases users r :
  ((handle users r).2 = users ∧ has_status 201 (handle users r).1 = false)
  ∨ ∃ b v, r = PostUsers b ∧ get_userId b = Some v ∧ truthy v = true
           ∧ includes users v = false
           ∧ handle users r = (registered, users ++ [v]).
Proof.
  destruct r as [| |b]; simpl; [by left..|].
  unfold post_users. destruct (get_userId b) as [v|] eqn:Hb; [|by left].
  destruct (truthy v) eqn:Hv; simpl; [|by left].
  destruct (includes users v) eqn:Hi; [by left|].
  right. by exists b, v.
Qed.

Lemma includes_app arr k v : includes (arr ++ k) v = includes arr v || includes k v.
Proof. unfold includes. apply existsb_app. Qed.

Lemma includes_prefix arr arr' v :
  arr `prefix_of` arr' → includes arr v = true → includes arr' v = true.
Proof. intros [k ->] H. by rewrite includes_app, H. Qed.

Lemma includes_last arr v : includes (arr ++ [v]) v = true.
Proof.
  rewrite includes_app. unfold includes at 2. simpl.
  by rewrite same_value_zero_refl, Bool.orb_true_r.
Qed.

(** X1. The array grows by one entry for every 201 among the answers and by
    nothing else, so it never grows by more than the number of
    registrations sent. *)
Theorem each_201_is_one_entry (users : list value) (rs : list request) :
  length (run users rs).2
  = (length users + count_status 201 (run users rs).1)%nat
  ∧ (count_status 201 (run users rs).1 ≤ length (List.filter is_post rs))%nat.
Proof.
  revert users. induction rs as [|r rs IH]; intros users.
  - simpl. unfold count_status. simpl. lia.
  - rewrite run_cons. cbn [fst snd].
    change (r :: ?os) with ([r] ++ os).
    change ((handle users r).1 :: ?os) with ([(handle users r).1] ++ os).
    unfold count_status in *.
    rewrite !List.filter_app, !length_app.
    destruct (IH (handle users r).2) as [IHl IHc]. rewrite IHl.
    destruct (handle_cases users r) as [[E1 E2]|(b & v & -> & _ & _ & _ & E)].
    + rewrite E1 in *. simpl. rewrite E2. simpl. lia.
    + rewrite E in *. cbn [fst snd] in *. rewrite length_app. simpl. lia.
Qed.

Lemma run_stored users rs v :
  v ∈ (run users rs).2 →
  v ∈ users
  ∨ (truthy v = true ∧ ∃ b, PostUsers b ∈ rs ∧ get_userId b = Some v).
Proof.
  revert users. induction rs as [|r rs IH]; intros users; [by left|].
  rewrite run_cons. cbn [snd]. intros Hv.
  destruct (IH _ Hv) as [Hin|(Ht & b & Hb & Hg)].
  - destruct (handle_cases users r) as [[E _]|(b & w & -> & Hg & Ht & _ & E)].
    + rewrite E in Hin. by left.
    + rewrite E in Hin. cbn [snd] in Hin.
      apply elem_of_app in Hin as [Hin|Hin]; [by left|].
      apply list_elem_of_singleton in Hin as ->. right. split; [done|].
      exists b. split; [left|done].
  - right. split; [done|]. exists b. split; [by right|done].
Qed.

(** X2. Whatever the server has been sent since it started, every entry of
    the array is truthy and is the [userId] of one of the registrations
    sent: nothing falsy and nothing of the server's own making is stored. *)
Theorem stored_ids_were_sent (rs : list request) (v : value) :
  v ∈ (run init rs).2 →
  truthy v = true ∧ ∃ b, PostUsers b ∈ rs ∧ get_userId b = Some v.
Proof.
  intros Hv. destruct (run_stored init rs v Hv) as [Hin|H]; [|done].
  by apply elem_of_nil in Hin.
Qed.

Lemma stored_ids_were_sent_witness :
  truthy (VStr "alice") = true
  ∧ ∃ b, PostUsers b ∈ [GetUsers; PostUsers (with_userId 0 (VStr "alice"))]
         ∧ get_userId b = Some (VStr "alice").
Proof.
  apply (stored_ids_were_sent
           [GetUsers; PostUsers (with_userId 0 (VStr "alice"))]).
  apply list_elem_of_In. simpl. left. reflexivity.
Defined.

(** X3. A truthy [userId] that was sent is in the array at the end of the
    sequence, pushed by its own request or found there by it: [includes]
    finds it from then on. *)
Theorem sent_ids_end_up_stored
    (users : list value) (rs : list request) (b v : value) :
  PostUsers b ∈ rs → get_userId b = Some v → truthy v = true →
  includes (run users rs).2 v = true.
Proof.
  intros Hin Hb Hv.
  apply list_elem_of_split in Hin as (rs1 & rs2 & ->).
  rewrite run_app. cbn [snd]. rewrite run_cons. cbn [snd].
  eapply includes_prefix; [apply run_prefix|].
  simpl. unfold post_users. rewrite Hb, Hv. simpl.
  destruct (includes (run users rs1).2 v) eqn:Hi; simpl; [done|].
  apply includes_last.
Qed.

Lemma sent_ids_end_up_stored_witness :
  includes (run [VStr "bob"]
              [PostUsers (with_userId 0 (VStr "alice")); GetUsers]).2
    (VStr "alice") = true.
Proof.
  apply (sent_ids_end_up_stored [VStr "bob"] _ (with_userId 0 (VStr "alice")));
    [ apply list_elem_of_In; simpl; left; reflexivity
    | reflexivity | reflexivity ].
Defined.

(** X4. The registration throws exactly on a body that is [undefined] or
    [null], and then leaves the array alone; when every registration of a
    sequence has a body that can be read from, every request is answered,
    with 200, 201 or 400. *)
Theorem readable_requests_are_answered (users : list value) (rs : list request) :
  forallb readable rs = true →
  forallb answered (run users rs).1 = true
  ∧ ¬ (Thrown ∈ (run users rs).1)
  ∧ (∀ b, (post_users users b).1 = Thrown ↔ nullish b = true)
  ∧ (∀ b, nullish b = true → (post_users users b).2 = users).
Proof.
  intros Hrs. split_and!.
  - revert users. induction rs as [|r rs IH]; intros users; [done|].
    simpl in Hrs. apply andb_prop in Hrs as [Hr Hrs].
    rewrite run_cons. cbn [fst forallb]. rewrite (IH Hrs), Bool.andb_true_r.
    destruct r as [| |b]; [done..|]. simpl in *. unfold post_users.
    destruct b; try done; simpl;
      repeat (case_match; simpl; try done).
  - revert users. induction rs as [|r rs IH]; intros users.
    { simpl. apply not_elem_of_nil. }
    simpl in Hrs. apply andb_prop in Hrs as [Hr Hrs].
    rewrite run_cons. cbn [fst]. apply not_elem_of_cons. split; [|by apply IH].
    destruct r as [| |b]; [done..|]. simpl in *. unfold post_users.
    destruct b; try done; simpl;
      repeat (case_match; simpl; try done).
  - intros b. unfold post_users. split.
    + destruct b; simpl; try done; repeat (case_match; simpl; try done).
    + intros Hb. by destruct b.
  - intros b Hb. by destruct b.
Qed.

Lemma readable_requests_are_answered_witness :
  forallb answered
    (run [VStr "bob"] [GetRoot; PostUsers (VArr 0 []); PostUsers (VObj 1 [])]).1
  = true.
Proof.
  apply (readable_requests_are_answered [VStr "bob"]
           [GetRoot; PostUsers (VArr 0 []); PostUsers (VObj 1 [])]).
  reflexivity.
Defined.

Lemma post_answers_cons r o rs os :
  post_answers (r :: rs) (o :: os)
  = if is_post r then o :: post_answers rs os else post_answers rs os.
Proof. unfold post_answers. simpl. by destruct (is_post r). Qed.

(** X5. The two reads are transparent: with every GET taken out of a
    sequence, the registrations get the answers they got with the reads in
    between, and the array ends the same. *)
Theorem reads_are_transparent (users : list value) (rs : list request) :
  (run users (List.filter is_post rs)).2 = (run users rs).2
  ∧ (run users (List.filter is_post rs)).1 = post_answers rs (run users rs).1.
Proof.
  revert users. induction rs as [|r rs IH]; intros users; [done|].
  rewrite (run_cons users r rs). cbn [fst snd].
  rewrite post_answers_cons. cbn [List.filter].
  destruct r as [| |b]; cbn [is_post].
  - apply IH.
  - apply IH.
  - rewrite run_cons. cbn [fst snd].
    destruct (IH (handle users (PostUsers b)).2) as [-> ->]. done.
Qed.



Lemma includes_strings us s : includes (VStr <$> us) (VStr s) = true ↔ s ∈ us.
Proof.
  rewrite includes_string. split.
  - intros H. apply list_elem_of_fmap in H as (t & [= ->] & Ht). done.
  - intros H. by apply list_elem_of_fmap_2.
Qed.

Lemma filter_not_seen (us : list string) (s : string) (l : list string) :
  filter (λ t, t ∉ us ++ [s]) l = filter (λ t, t ∉ us) (filter (λ t, t ≠ s) l).
Proof.
  rewrite list_filter_filter. apply list_filter_iff. intros t.
  rewrite not_elem_of_app, not_elem_of_cons.
  pose proof (not_elem_of_nil t). tauto.
Qed.

Lemma filter_seen (us : list string) (s : string) (l : list string) :
  s ∈ us →
  filter (λ t, t ∉ us) (filter (λ t, t ≠ s) l) = filter (λ t, t ∉ us) l.
Proof.
  intros Hs. rewrite list_filter_filter. apply list_filter_iff. intros t.
  split; [by intros [? _]|]. intros Ht. split; [done|]. by intros ->.
Qed.

(** Registrations of the strings [ids], run on an array of strings. *)
Lemma run_strings (us : list string) (rs : list request) (ids : list string) :
  Forall2 (λ r s, userId_of r = Some (VStr s)) rs ids →
  (run (VStr <$> us) rs).2
  = VStr <$> (us ++ filter (λ t, t ∉ us) (first_ids ids)).
Proof.
  intros H. revert us. induction H as [|r s rs ids Hr _ IH]; intros us.
  - simpl. by rewrite filter_nil, app_nil_r.
  - rewrite run_cons. cbn [snd first_ids].
    destruct r as [| |b]; [done..|]. simpl in Hr. simpl. unfold post_users.
    rewrite Hr. simpl. destruct (decide (s = "")) as [->|Hs]; simpl.
    { apply IH. }
    rewrite (proj2 (String.eqb_neq s "")) by done. simpl.
    destruct (includes (VStr <$> us) (VStr s)) eqn:Hi.
    + apply includes_strings in Hi. simpl. rewrite IH.
      rewrite filter_cons_False by (intros Hn; by apply Hn).
      by rewrite filter_seen.
    + simpl. apply Bool.not_true_iff_false in Hi.
      rewrite includes_strings in Hi.
      change [VStr s] with (VStr <$> [s]). rewrite <- fmap_app, IH.
      rewrite filter_cons_True by done.
      rewrite filter_not_seen, <- (assoc_L (++)). done.
Qed.

Lemma filter_none_seen (l : list string) : filter (λ t, t ∉ []) l = l.
Proof.
  induction l as [|t l IH]; [done|].
  rewrite filter_cons_True by apply not_elem_of_nil. by rewrite IH.
Qed.

(** X7. When every request of a sequence registers a string, the array the
    new server ends with holds the non-empty ones among them, each once,
    where it was sent first. *)
Theorem store_is_first_ids (rs : list request) (ids : list string) :
  Forall2 (λ r s, userId_of r = Some (VStr s)) rs ids →
  (run init rs).2 = VStr <$> first_ids ids.
Proof.
  intros H. change init with (VStr <$> []). rewrite (run_strings [] rs ids H).
  simpl. by rewrite filter_none_seen.
Qed.

Lemma store_is_first_ids_witness :
  (run init [PostUsers (with_userId 0 (VStr "bob"));
             PostUsers (with_userId 1 (VStr ""));
             PostUsers (with_userId 2 (VStr "alice"));
             PostUsers (with_userId 3 (VStr "bob"))]).2
  = VStr <$> first_ids ["bob"; ""; "alice"; "bob"].
Proof.
  apply (store_is_first_ids
           [PostUsers (with_userId 0 (VStr "bob"));
            PostUsers (with_userId 1 (VStr ""));
            PostUsers (with_userId 2 (VStr "alice"));
            PostUsers (with_userId 3 (VStr "bob"))]
           ["bob"; ""; "alice"; "bob"]).
  repeat constructor.
Defined.




End Sequences.

(** ** Any requests on the event loop *)

Module Schedules.
Import Js App Traffic JsFacts AppFacts EventLoop Sequences.

(** However far the loop has come, it has done what the server does when it
    is handed the requests answered so far one after the other, in the order
    the loop took them. *)
Lemma loop_serial users reqs c :
  rtc step (Config users reqs []) c →
  ∃ order,
    order ++ pending c ≡ₚ reqs
    ∧ replies c = zip order.*1 (run users order.*2).1
    ∧ store c = (run users order.*2).2.
Proof.
  revert c. apply rtc_ind_r.
  - exists []. done.
  - intros c c' _ Hstep (order & Hperm & Hrep & Hst).
    destruct Hstep as [st before id r after done]. cbn [store pending replies] in *.
    exists (order ++ [(id, r)]). split_and!.
    + rewrite <- Hperm, <- (assoc_L (++)). f_equiv. simpl.
      apply Permutation_middle.
    + rewrite !fmap_app, run_app. cbn [fst]. rewrite <- Hst.
      rewrite zip_with_app by (by rewrite run_length, !length_fmap).
      rewrite <- Hrep. simpl. by destruct (handle st r).
    + rewrite fmap_app, run_app. cbn [snd]. rewrite <- Hst.
      simpl. by destruct (handle st r).
Qed.

Lemma loop_store users reqs c :
  distinct users → rtc step (Config users reqs []) c →
  distinct (store c) ∧ users `prefix_of` store c.
Proof.
  intros Hd H. destruct (loop_serial users reqs c H) as (order & _ & _ & ->).
  split; [by apply run_distinct | apply run_prefix].
Qed.

(** Registrations of non-empty strings, no two the same and none in the
    array yet, all go through. *)
Lemma run_fresh users rs :
  Forall (λ r, ∃ s, userId_of r = Some (VStr s) ∧ s ≠ "" ∧ VStr s ∉ users) rs →
  NoDup (userId_of <$> rs) →
  run users rs = (replicate (length rs) registered, users ++ omap userId_of rs).
Proof.
  revert users. induction rs as [|r rs IH]; intros users Hrs Hnd.
  - simpl. by rewrite app_nil_r.
  - apply Forall_cons in Hrs as [(s & Hr & Hs & Hout) Hrs].
    rewrite fmap_cons in Hnd. apply NoDup_cons in Hnd as [Hr' Hnd].
    rewrite run_cons. destruct r as [| |b]; [done..|]. simpl in Hr.
    cbn [handle]. rewrite (post_users_push users b (VStr s));
      [|done|by apply truthy_string|by apply includes_string_false].
    cbn [fst snd]. rewrite IH; [| |done].
    + cbn [fst snd length replicate omap userId_of list_omap]. simpl.
      rewrite Hr. by rewrite <- (assoc_L (++)).
    + apply Forall_forall. intros r' Hin.
      rewrite Forall_forall in Hrs. destruct (Hrs r' Hin) as (t & Ht & Hne & Hfresh).
      exists t. split_and!; [done|done|].
      rewrite not_elem_of_app. split; [done|].
      rewrite list_elem_of_singleton. intros [= ->].
      apply Hr'. simpl. rewrite Hr, <- Ht. by apply list_elem_of_fmap_2.
Qed.

Lemma zip_replicate {A B : Type} (l : list A) (y : B) :
  zip l (replicate (length l) y) = (λ x, (x, y)) <$> l.
Proof. induction l as [|x l IH]; [done|]. simpl. by rewrite IH. Qed.



(** X10. At every point of every schedule of any requests, an array that
    had no two entries the same to [includes] still has none, it starts
    with the entries it had, and every request is either still pending or
    answered once. *)
Theorem loop_keeps_store_unique
    (users : list value) (reqs : list (nat * request)) (c : config) :
  distinct users → rtc step (Config users reqs []) c →
  distinct (store c)
  ∧ NoDup (store c)
  ∧ users `prefix_of` store c
  ∧ (replies c).*1 ++ (pending c).*1 ≡ₚ reqs.*1.
Proof.
  intros Hd H. destruct (loop_store users reqs c Hd H) as [Hd' Hp].
  split_and!; [done|by apply distinct_NoDup|done|].
  destruct (loop_serial users reqs c H) as (order & Hperm & Hrep & _).
  rewrite Hrep, <- Hperm, fmap_app. f_equiv.
  rewrite fst_zip; [done|]. rewrite run_length, !length_fmap. done.
Qed.

Lemma loop_keeps_store_unique_witness :
  distinct [VStr "alice"]
  ∧ NoDup [VStr "alice"]
  ∧ [] `prefix_of` [VStr "alice"]
  ∧ [1] ++ [2] ≡ₚ [1; 2].
Proof.
  apply (loop_keeps_store_unique []
           [(1, PostUsers (with_userId 0 (VStr "alice")));
            (2, PostUsers (with_userId 1 (VStr "alice")))]
           (Config [VStr "alice"]
              [(2, PostUsers (with_userId 1 (VStr "alice")))]
              [(1, registered)])).
  - apply distinct_nil.
  - eapply rtc_l; [apply (step_dispatch _ [] 1 _ [_] [])|]. apply rtc_refl.
Defined.

(** X11. Registrations of non-empty strings that are pairwise different and
    not in the array do not get in each other's way: in whatever order the
    loop takes them, every one is answered with 201 and the array ends with
    the strings pushed in the order their requests were taken. *)
Theorem distinct_registrations_all_win
    (users : list value) (reqs : list (nat * request)) (c : config) :
  Forall (λ p, ∃ s, userId_of p.2 = Some (VStr s) ∧ s ≠ "" ∧ VStr s ∉ users)
    reqs →
  NoDup (userId_of <$> reqs.*2) →
  rtc step (Config users reqs []) c → pending c = [] →
  ∃ order,
    order ≡ₚ reqs
    ∧ replies c = (λ p, (p.1, registered)) <$> order
    ∧ store c = users ++ omap userId_of order.*2.
Proof.
  intros Hreqs Hnd H Hend.
  destruct (loop_serial users reqs c H) as (order & Hp & Hr & Hs).
  rewrite Hend, app_nil_r in Hp. exists order. split; [done|].
  rewrite <- Hp in Hreqs, Hnd.
  assert (run users order.*2
          = (replicate (length order.*2) registered,
             users ++ omap userId_of order.*2)) as E.
  { apply run_fresh; [|done]. apply Forall_fmap. done. }
  rewrite E in Hr, Hs. cbn [fst snd] in *. split; [|done].
  rewrite Hr, !length_fmap, <- (length_fmap fst order), zip_replicate.
  rewrite <- list_fmap_compose. done.
Qed.

Lemma distinct_registrations_all_win_witness :
  ∃ order,
    order ≡ₚ [(1, PostUsers (with_userId 0 (VStr "alice")));
              (2, PostUsers (with_userId 1 (VStr "bob")))]
    ∧ [(2, registered); (1, registered)] = (λ p, (p.1, registered)) <$> order
    ∧ [VStr "bob"; VStr "alice"] = [] ++ omap userId_of order.*2.
Proof.
  apply (distinct_registrations_all_win []
           [(1, PostUsers (with_userId 0 (VStr "alice")));
            (2, PostUsers (with_userId 1 (VStr "bob")))]
           (Config [VStr "bob"; VStr "alice"] []
              [(2, registered); (1, registered)])).
  - repeat constructor; simpl; eexists; (split_and!; [reflexivity|discriminate|]);
      apply not_elem_of_nil.
  - simpl. repeat constructor; rewrite ?list_elem_of_In; simpl;
      intros H; repeat destruct H as [H|H]; try discriminate H; done.
  - eapply rtc_l;
      [apply (step_dispatch _ [(1, PostUsers (with_userId 0 (VStr "alice")))]
                2 _ [] [])|].
    eapply rtc_l; [apply (step_dispatch _ [] 1 _ [] _)|].
    apply rtc_refl.
  - reflexivity.
Defined.

Lemma first_ids_elem (ids : list string) (s : string) :
  s ∈ first_ids ids ↔ s ∈ ids ∧ s ≠ "".
Proof.
  induction ids as [|t ids IH]; simpl.
  - split; [by intros ?%elem_of_nil | by intros [?%elem_of_nil _]].
  - destruct (decide (t = "")) as [->|Ht].
    + rewrite IH, elem_of_cons. split; [by intros [? ?]; auto|].
      intros [[->|?] ?]; done.
    + rewrite !elem_of_cons, list_elem_of_filter, IH. split.
      * intros [->|[? [? ?]]]; auto.
      * intros [[->|?] ?]; [by left|].
        destruct (decide (s = t)) as [->|]; [by left|by right].
Qed.

Lemma first_ids_NoDup (ids : list string) : NoDup (first_ids ids).
Proof.
  induction ids as [|t ids IH]; simpl; [constructor|].
  destruct (decide (t = "")); [done|]. constructor.
  - rewrite list_elem_of_filter. by intros [? _].
  - by apply NoDup_filter.
Qed.

Lemma first_ids_Permutation (ids ids' : list string) :
  ids ≡ₚ ids' → first_ids ids ≡ₚ first_ids ids'.
Proof.
  intros H. apply NoDup_Permutation; [apply first_ids_NoDup..|].
  intros s. rewrite !first_ids_elem. by rewrite H.
Qed.

Lemma id_strings (rs : list request) :
  Forall (λ r, ∃ s, userId_of r = Some (VStr s)) rs →
  Forall2 (λ r s, userId_of r = Some (VStr s)) rs (omap id_string rs).
Proof.
  induction 1 as [|r rs [s Hr] _ IH]; [constructor|].
  cbn [omap list_omap]. unfold id_string at 1. rewrite Hr.
  constructor; done.
Qed.

(** X12. Who ends up registered does not depend on the schedule: when the
    pending requests all register strings on the new server, any two
    complete runs of the loop end with the same strings in the array, each
    once, in the two orders of arrival. *)
Theorem schedule_keeps_who_is_registered
    (reqs : list (nat * request)) (c c' : config) :
  Forall (λ p, ∃ s, userId_of p.2 = Some (VStr s)) reqs →
  rtc step (Config init reqs []) c → pending c = [] →
  rtc step (Config init reqs []) c' → pending c' = [] →
  store c ≡ₚ store c'
  ∧ store c ≡ₚ VStr <$> first_ids (omap id_string reqs.*2).
Proof.
  intros Hreqs H Hend H' Hend'.
  assert (∀ d, rtc step (Config init reqs []) d → pending d = [] →
               store d ≡ₚ VStr <$> first_ids (omap id_string reqs.*2)) as Hall.
  { intros d Hd Hdend.
    destruct (loop_serial init reqs d Hd) as (order & Hp & _ & ->).
    rewrite Hdend, app_nil_r in Hp.
    change init with (VStr <$> []).
    rewrite (run_strings [] order.*2 (omap id_string order.*2)).
    - simpl. rewrite filter_none_seen. f_equiv.
      apply first_ids_Permutation. by rewrite Hp.
    - apply id_strings, Forall_fmap. by rewrite Hp. }
  split; [|by apply Hall]. by rewrite (Hall c), (Hall c').
Qed.

Lemma schedule_keeps_who_is_registered_witness :
  [VStr "bob"; VStr "alice"] ≡ₚ [VStr "alice"; VStr "bob"].
Proof.
  apply (schedule_keeps_who_is_registered
           [(1, PostUsers (with_userId 0 (VStr "alice")));
            (2, PostUsers (with_userId 1 (VStr "bob")))]
           (Config [VStr "bob"; VStr "alice"] []
              [(2, registered); (1, registered)])
           (Config [VStr "alice"; VStr "bob"] []
              [(1, registered); (2, registered)])).
  - repeat constructor; simpl; eexists; reflexivity.
  - eapply rtc_l;
      [apply (step_dispatch _ [(1, PostUsers (with_userId 0 (VStr "alice")))]
                2 _ [] [])|].
    eapply rtc_l; [apply (step_dispatch _ [] 1 _ [] _)|].
    apply rtc_refl.
  - reflexivity.
  - eapply rtc_l; [apply (step_dispatch _ [] 1 _ [_] [])|].
    eapply rtc_l; [apply (step_dispatch _ [] 2 _ [] _)|].
    apply rtc_refl.
  - reflexivity.
Defined.

End Schedules.
